(** * RC Tank License Server: the license lifecycle of [server.py]

    A shallow embedding of the request handlers of [server.py] and the
    properties of the license lifecycle proved about them.

    Modelling conventions.
    - The [licenses] table is the list of its rows in rowid order.  The
      [UNIQUE] constraint on [license_key] is enforced by [db_insert], the
      only place where rows are added.
    - [REAL] columns and the readings of [time.time()] are exact rationals
      ([Q]); the rounding of binary floating point is not modelled.
    - Text is a [string] of code points below 256.
    - [secrets.token_hex] draws its bytes from an entropy source, a function
      [nat -> byte] read at an explicit position that the handlers thread.
    - A handler receives the current store and yields its reply together with
      the committed store.  A handler that raises before [db.commit()] leaves
      the store as it found it: the connection is closed without a commit.
    - [strftime] is not modelled: a reply carries the timestamp it formats.
    - The admin handlers are modelled behind [require_admin], that is for
      calls that carry the right secret. *)

From Stdlib Require Import List String Ascii Bool ZArith NArith QArith Qminmax Lia Lqa.
From Stdlib.Strings Require Import Byte.
From Stdlib Require Import Permutation Sorted.
Import ListNotations.

Local Open Scope string_scope.

(** ** Python strings *)

Module PyStr.

(** [str.isspace] on the code points below 256: TAB, LF, VT, FF, CR,
    FS, GS, RS, US, SPACE, NEL and NBSP. *)
Definition isspace (c : ascii) : bool :=
  let n := N_of_ascii c in
  ((9 <=? n) && (n <=? 13) || (28 <=? n) && (n <=? 32)
   || (n =? 133) || (n =? 160))%N.

Fixpoint lstrip (s : string) : string :=
  match s with
  | EmptyString => EmptyString
  | String c s' => if isspace c then lstrip s' else s
  end.

Fixpoint rstrip (s : string) : string :=
  match s with
  | EmptyString => EmptyString
  | String c s' =>
      match rstrip s' with
      | EmptyString => if isspace c then EmptyString else String c EmptyString
      | t => String c t
      end
  end.

(** [s.strip()] *)
Definition strip (s : string) : string := rstrip (lstrip s).

(** Truth value of a string: [not s] holds of the empty string only. *)
Definition truthy (s : string) : bool :=
  match s with EmptyString => false | String _ _ => true end.

(** [s.upper()] on ASCII letters, which is all that [token_hex] can
    produce besides digits. *)
Definition upper_char (c : ascii) : ascii :=
  let n := N_of_ascii c in
  if ((97 <=? n) && (n <=? 122))%N then ascii_of_N (n - 32) else c.

Fixpoint upper (s : string) : string :=
  match s with
  | EmptyString => EmptyString
  | String c s' => String (upper_char c) (upper s')
  end.

(** The slice [s[a:b]] for [0 <= a <= b]; like Python's, it stops at
    the end of [s]. *)
Definition slice (a b : nat) (s : string) : string := substring a (b - a) s.

End PyStr.

(** ** Key generation *)

Definition entropy := nat -> byte.

(** [secrets.token_bytes(n)], read at position [pos] of the source. *)
Definition token_bytes (ent : entropy) (pos n : nat) : list byte :=
  map ent (seq pos n).

Definition hex_digit (n : N) : ascii :=
  match n with
  | 0 => "0" | 1 => "1" | 2 => "2" | 3 => "3" | 4 => "4" | 5 => "5"
  | 6 => "6" | 7 => "7" | 8 => "8" | 9 => "9" | 10 => "a" | 11 => "b"
  | 12 => "c" | 13 => "d" | 14 => "e" | _ => "f"
  end%N%char.

(** Two lowercase hexadecimal digits per byte, as [bytes.hex()] writes them. *)
Fixpoint hex (bs : list byte) : string :=
  match bs with
  | [] => EmptyString
  | b :: bs' =>
      let n := Byte.to_N b in
      String (hex_digit (n / 16)) (String (hex_digit (n mod 16)) (hex bs'))
  end.

(** [secrets.token_hex(n)] and the position after the draw. *)
Definition token_hex (ent : entropy) (pos n : nat) : string * nat :=
  (hex (token_bytes ent pos n), (pos + n)%nat).

Definition generate_key (ent : entropy) (pos : nat) : string * nat :=
  let '(tok, pos') := token_hex ent pos 8 in
  let raw := PyStr.upper tok in
  (PyStr.slice 0 4 raw ++ "-" ++ PyStr.slice 4 8 raw ++ "-"
     ++ PyStr.slice 8 12 raw ++ "-" ++ PyStr.slice 12 16 raw, pos').

(** The format [^[0-9A-F]{4}-[0-9A-F]{4}-[0-9A-F]{4}-[0-9A-F]{4}$]. *)
Definition is_upper_hex (c : ascii) : bool :=
  let n := N_of_ascii c in
  ((48 <=? n) && (n <=? 57) || (65 <=? n) && (n <=? 70))%N.

Fixpoint hex_group (n : nat) (s : string) : option string :=
  match n with
  | O => Some s
  | S n' =>
      match s with
      | String c s' => if is_upper_hex c then hex_group n' s' else None
      | EmptyString => None
      end
  end.

Definition hyphen (s : string) : option string :=
  match s with
  | String "-"%char s' => Some s'
  | _ => None
  end.

Definition and_then {A B} (o : option A) (f : A -> option B) : option B :=
  match o with Some a => f a | None => None end.

Definition key_format (s : string) : bool :=
  match
    and_then (and_then (and_then (and_then (and_then (and_then
      (hex_group 4 s) hyphen) (hex_group 4)) hyphen) (hex_group 4)) hyphen)
      (hex_group 4)
  with
  | Some EmptyString => true
  | _ => false
  end.

(** ** Numbers and time *)

Definition timestamp := Q.

Definition Qlt_bool (x y : Q) : bool := negb (Qle_bool y x).

(** [max(a, b)] on numbers: the first argument unless the second is
    strictly greater. *)
Definition py_max (a b : Q) : Q := if Qlt_bool a b then b else a.

(** [int(x)]: truncation towards zero. *)
Definition py_int (x : Q) : Z := Z.quot (Qnum x) (Zpos (Qden x)).

(** Truth value of a number. *)
Definition nonzero (x : Q) : bool := negb (Qeq_bool x 0).

Definition day : Q := 86400.

(** ** The [licenses] table *)

Record license := mkLicense {
  license_key : string;
  machine_id : string;
  email : string;
  created_at : timestamp;
  expires_at : timestamp;
  activated_at : timestamp;
  revoked : bool;
  notes : string
}.

Definition store := list license.

Definition has_key (key : string) (r : license) : bool :=
  String.eqb (license_key r) key.

(** [SELECT * FROM licenses WHERE license_key = ?] followed by [fetchone()]. *)
Definition select_key (key : string) (db : store) : option license :=
  find (has_key key) db.

(** [UPDATE licenses SET ... WHERE license_key = ?]: the new table. *)
Definition update_key (key : string) (f : license -> license) (db : store)
  : store :=
  map (fun r => if has_key key r then f r else r) db.

(** [cur.rowcount] of that update. *)
Definition rowcount (key : string) (db : store) : nat :=
  List.length (filter (has_key key) db).

(** [INSERT INTO licenses (license_key, email, created_at, expires_at, notes)]:
    the other columns take their defaults; [None] is the [IntegrityError]
    of the [UNIQUE] constraint. *)
Definition db_insert (key mail : string) (created expires : timestamp)
    (note : string) (db : store) : option store :=
  if existsb (has_key key) db then None
  else Some (db ++ [mkLicense key "" mail created expires 0 false note])%list.

Definition set_binding (machine : string) (at_ : timestamp) (r : license)
  : license :=
  mkLicense (license_key r) machine (email r) (created_at r) (expires_at r)
            at_ (revoked r) (notes r).

Definition set_revoked (b : bool) (r : license) : license :=
  mkLicense (license_key r) (machine_id r) (email r) (created_at r)
            (expires_at r) (activated_at r) b (notes r).

Definition set_renewed (expires : timestamp) (r : license) : license :=
  mkLicense (license_key r) (machine_id r) (email r) (created_at r)
            expires (activated_at r) false (notes r).

(** [ORDER BY created_at DESC], as a stable insertion sort; SQL leaves the
    order of rows with equal [created_at] open. *)
Fixpoint insert_desc (r : license) (l : list license) : list license :=
  match l with
  | [] => [r]
  | x :: l' =>
      if Qle_bool (created_at x) (created_at r) then r :: l
      else x :: insert_desc r l'
  end.

Definition order_by_created_desc (db : store) : list license :=
  fold_right insert_desc [] db.

(** ** Replies *)

(** The reply of [/api/activate] and [/api/validate]: either
    [{'valid': False, 'message': m}] with an error status, or the
    [{'valid': True, ...}] body with status 200 ([activated] tells
    whether the body has the ['activated': True] entry). *)
Inductive client_reply :=
| Refused (message : string) (status : Z)
| Granted (activated : bool) (message : string) (days_left : Z)
          (expires : timestamp).

Definition is_granted (rep : client_reply) : bool :=
  match rep with Granted _ _ _ _ => true | Refused _ _ => false end.

(** The rejection reasons of the lifecycle, and the one each refusal of
    the handlers stands for. *)
Inductive rejection :=
| MissingInput | NotFound | Revoked | Expired | MachineMismatch.

Definition rejection_of (rep : client_reply) : option rejection :=
  match rep with
  | Granted _ _ _ _ => None
  | Refused m _ =>
      if (m =? "Missing key or machine ID") then Some MissingInput
      else if (m =? "Invalid license key") then Some NotFound
      else if (m =? "License has been revoked") || (m =? "License revoked")
      then Some Revoked
      else if (m =? "License has expired") || (m =? "License expired")
      then Some Expired
      else if (m =? "License is already activated on another machine")
              || (m =? "License not activated for this machine")
      then Some MachineMismatch
      else None
  end.

(** ** The client handlers *)

(** The string fields of a request body are passed as they arrive; a field
    that is absent reads as the empty string ([data.get(name, '')]). *)

(** [max(0, (row['expires_at'] - now) / 86400)] *)
Definition days_left_of (expires now : timestamp) : Q :=
  py_max 0 ((expires - now) / day).

Definition activate (now : timestamp) (license_key_ machine_id_ : string)
    (db : store) : client_reply * store :=
  let key := PyStr.strip license_key_ in
  let machine := PyStr.strip machine_id_ in
  if negb (PyStr.truthy key) || negb (PyStr.truthy machine) then
    (Refused "Missing key or machine ID" 400, db)
  else
    match select_key key db with
    | None => (Refused "Invalid license key" 404, db)
    | Some row =>
        if revoked row then (Refused "License has been revoked" 403, db)
        else if Qlt_bool (expires_at row) now then
          (Refused "License has expired" 403, db)
        else if PyStr.truthy (machine_id row)
                && negb (machine_id row =? machine) then
          (Refused "License is already activated on another machine" 403, db)
        else
          let db' := update_key key (set_binding machine now) db in
          let days_left := days_left_of (expires_at row) now in
          (Granted true "License activated" (py_int days_left)
                   (expires_at row), db')
    end.

Definition validate (now : timestamp) (license_key_ machine_id_ : string)
    (db : store) : client_reply * store :=
  let key := PyStr.strip license_key_ in
  let machine := PyStr.strip machine_id_ in
  if negb (PyStr.truthy key) || negb (PyStr.truthy machine) then
    (Refused "Missing key or machine ID" 400, db)
  else
    match select_key key db with
    | None => (Refused "Invalid license key" 404, db)
    | Some row =>
        if revoked row then (Refused "License revoked" 403, db)
        else if Qlt_bool (expires_at row) now then
          (Refused "License expired" 403, db)
        else if negb (machine_id row =? machine) then
          (Refused "License not activated for this machine" 403, db)
        else
          let days_left := days_left_of (expires_at row) now in
          (Granted false "License valid" (py_int days_left)
                   (expires_at row), db)
    end.

(** ** The admin handlers *)

(** [data.get(name, default)] for an optional field of the request body. *)
Definition get {A} (field : option A) (default : A) : A :=
  match field with Some v => v | None => default end.

Record generate_reply := mkGenerateReply {
  gen_keys : list string;
  gen_days : Q;
  gen_expires : timestamp;
  gen_count : Z
}.

(** The loop [for _ in range(count)] of [admin_generate], [n] rounds of it:
    the table, the keys collected so far and the position in the entropy
    source are threaded; [None] is an [IntegrityError] raised by an insert. *)
Fixpoint generate_loop (ent : entropy) (n : nat) (mail note : string)
    (now expires : timestamp) (db : store) (keys : list string) (pos : nat)
  : option (store * list string) * nat :=
  match n with
  | O => (Some (db, keys), pos)
  | S n' =>
      let '(key, pos') := generate_key ent pos in
      match db_insert key mail now expires note db with
      | None => (None, pos')
      | Some db' =>
          generate_loop ent n' mail note now expires db' (keys ++ [key])%list
                        pos'
      end
  end.

(** [admin_generate]: the reply is [None] when the handler dies of an
    [IntegrityError]; nothing is committed then. *)
Definition admin_generate (ent : entropy) (now : timestamp)
    (count_ : option Z) (days_ : option Q) (email_ notes_ : string)
    (db : store) (pos : nat) : option generate_reply * store * nat :=
  let count := Z.min (get count_ 1%Z) 50 in
  let days := get days_ 30 in
  let expires := now + days * day in
  match generate_loop ent (Z.to_nat count) email_ notes_ now expires db []
                      pos with
  | (None, pos') => (None, db, pos')
  | (Some (db', keys), pos') =>
      (Some (mkGenerateReply keys days expires count), db', pos')
  end.

(** Replies of the admin handlers that answer [{'success': ..., ...}]. *)
Inductive admin_reply :=
| Done (message : string)
| Renewed (expires : timestamp)
| Failed (message : string) (status : Z).

Definition admin_revoke (key : string) (db : store) : admin_reply * store :=
  let db' := update_key key (set_revoked true) db in
  if (0 <? rowcount key db)%nat then (Done "License revoked", db')
  else (Failed "Key not found" 404, db').

Definition admin_renew (now : timestamp) (key : string) (days_ : option Q)
    (db : store) : admin_reply * store :=
  let days := get days_ 30 in
  match select_key key db with
  | None => (Failed "Key not found" 404, db)
  | Some row =>
      let base := py_max now (expires_at row) in
      let new_expires := base + days * day in
      (Renewed new_expires, update_key key (set_renewed new_expires) db)
  end.

Definition admin_unbind (key : string) (db : store) : admin_reply * store :=
  let db' := update_key key (set_binding "" 0) db in
  if (0 <? rowcount key db)%nat then (Done "Machine binding removed", db')
  else (Failed "Key not found" 404, db').

Record list_entry := mkEntry {
  e_license_key : string;
  e_machine_id : string;
  e_email : string;
  e_created : timestamp;
  e_expires : timestamp;
  e_days_left : Z;
  e_activated : bool;
  e_revoked : bool;
  e_notes : string
}.

Definition entry_of (now : timestamp) (r : license) : list_entry :=
  mkEntry (license_key r) (machine_id r) (email r) (created_at r)
          (expires_at r)
          (Z.max 0 (py_int ((expires_at r - now) / day)))
          (nonzero (activated_at r)) (revoked r) (notes r).

(** [admin_list]: the ['licenses'] of the reply (['total'] is their number). *)
Definition admin_list (now : timestamp) (db : store) : list list_entry :=
  map (entry_of now) (order_by_created_desc db).

(** ** Requests *)

(** The seven operations, with the fields of their request bodies. *)
Inductive request :=
| Activate (key machine : string)
| Validate (key machine : string)
| Generate (count : option Z) (days : option Q) (mail note : string)
| Revoke (key : string)
| Renew (key : string) (days : option Q)
| Unbind (key : string)
| ListAll.

Definition is_renew (req : request) : bool :=
  match req with Renew _ _ => true | _ => false end.

(** What serving a request at time [now] does to the table and to the
    position in the entropy source. *)
Definition serve (ent : entropy) (now : timestamp) (req : request)
    (db : store) (pos : nat) : store * nat :=
  match req with
  | Activate key machine => (snd (activate now key machine db), pos)
  | Validate key machine => (snd (validate now key machine db), pos)
  | Generate count days mail note =>
      let '(_, db', pos') := admin_generate ent now count days mail note db pos
      in (db', pos')
  | Revoke key => (snd (admin_revoke key db), pos)
  | Renew key days => (snd (admin_renew now key days db), pos)
  | Unbind key => (snd (admin_unbind key db), pos)
  | ListAll => (db, pos)
  end.

(** ** Notions used in the statements *)


(** The keys that [n] successive calls of [generate_key] build from
    position [pos] on. *)
Fixpoint drawn_keys (ent : entropy) (pos n : nat) : list string :=
  match n with
  | O => []
  | S n' => fst (generate_key ent pos) :: drawn_keys ent (pos + 8) n'
  end.

(** The row that the [INSERT] of [admin_generate] adds for a key. *)
Definition fresh_row (mail note : string) (created expires : timestamp)
    (key : string) : license :=
  mkLicense key "" mail created expires 0 false note.

(** A row as [admin_generate] leaves it: never bound, never activated,
    not revoked. *)
Definition unbound (r : license) : Prop :=
  machine_id r = "" /\ activated_at r = 0 /\ revoked r = false.

(** [expires_at < now], the test of [activate] and [validate]. *)
Definition expired (now : timestamp) (r : license) : Prop :=
  expires_at r < now.

(** ** Reachable tables *)

(** The tables the server can hold: the empty one of [init_db], and the
    outcome of serving any request on a table that can be held. *)
Inductive reachable : store -> Prop :=
| reach_init : reachable []
| reach_serve ent now req db pos :
    reachable db -> reachable (fst (serve ent now req db pos)).

(** What every reachable table satisfies: keys are pairwise distinct and
    well formed, and a stored machine id carries no surrounding blanks. *)
Definition row_ok (r : license) : Prop :=
  key_format (license_key r) = true
  /\ PyStr.strip (machine_id r) = machine_id r.

Definition store_ok (db : store) : Prop :=
  NoDup (map license_key db) /\ Forall row_ok db.

(** ** Sample runs *)

(** An entropy source that repeats one byte eight times, then the next:
    the keys drawn from it are [0000-0000-0000-0000],
    [0101-0101-0101-0101], and so on. *)
Definition sample_entropy : entropy :=
  fun n => match Byte.of_N (N.of_nat (n / 8)) with
           | Some b => b
           | None => x00
           end.

Definition key0 : string := "0000-0000-0000-0000".

(** One key issued at time 0 for the default thirty days. *)
Definition issued : store :=
  fst (serve sample_entropy 0 (Generate (Some 1%Z) None "a@b.com" "") [] 0).

(** The same key, bound to machine [M1] at time 10. *)
Definition bound : store :=
  fst (serve sample_entropy 10 (Activate key0 "M1") issued 8).

Definition bound_row : license :=
  mkLicense key0 "M1" "a@b.com" 0 2592000 10 false "".

(** ... and revoked at time 20. *)
Definition bound_revoked : store :=
  fst (serve sample_entropy 20 (Revoke key0) bound 8).

Definition bound_revoked_row : license :=
  mkLicense key0 "M1" "a@b.com" 0 2592000 10 true "".


(** ** The admin guard *)

Fixpoint is_ascii (s : string) : bool :=
  match s with
  | EmptyString => true
  | String c s' => (N_of_ascii c <? 128)%N && is_ascii s'
  end.

(** [hmac.compare_digest(a, b)] on two [str]: [None] is the [TypeError]
    it raises unless both are ASCII.  That it runs in constant time is not
    modelled. *)
Definition compare_digest (a b : string) : option bool :=
  if is_ascii a && is_ascii b then Some (a =? b) else None.

(** [ADMIN_SECRET], read from the environment variable of that name. *)
Definition ADMIN_SECRET (env : option string) : string :=
  get env "changeme_rc_tank_2026".

(** What a handler wrapped in [require_admin] comes to: the
    [({'error': 'Unauthorized'}, 401)] reply, the [TypeError] of the
    comparison, or the handler's own outcome. *)
Inductive guarded (A : Type) :=
| Unauthorized
| Raised
| Passed (outcome : A).

Arguments Unauthorized {A}.
Arguments Raised {A}.
Arguments Passed {A} outcome.

(** [require_admin(f)], called with the [X-Admin-Secret] header [auth]
    (the empty string when the header is absent). *)
Definition require_admin {A} (secret auth : string) (f : A) : guarded A :=
  match compare_digest auth secret with
  | None => Raised
  | Some false => Unauthorized
  | Some true => Passed f
  end.

(** The five admin routes are the decorated ones. *)
Definition is_admin (req : request) : bool :=
  match req with
  | Activate _ _ | Validate _ _ => false
  | _ => true
  end.

(** Serving a request that arrives with header [auth]. *)
Definition serve_http (secret auth : string) (ent : entropy)
    (now : timestamp) (req : request) (db : store) (pos : nat)
  : store * nat :=
  if is_admin req then
    match require_admin secret auth (serve ent now req db pos) with
    | Passed out => out
    | _ => (db, pos)
    end
  else serve ent now req db pos.

(** ** Further notions used in the statements *)

(** The key a request names, as its handler reads it. *)
Definition target (req : request) : option string :=
  match req with
  | Activate key _ | Validate key _ => Some (PyStr.strip key)
  | Revoke key | Renew key _ | Unbind key => Some key
  | Generate _ _ _ _ | ListAll => None
  end.

Definition is_generate (req : request) : bool :=
  match req with Generate _ _ _ _ => true | _ => false end.

(** The requests whose handlers write [machine_id] and [activated_at],
    and those that write [revoked]. *)
Definition writes_binding (req : request) : bool :=
  match req with Activate _ _ | Unbind _ => true | _ => false end.

Definition writes_revoked (req : request) : bool :=
  match req with Revoke _ | Renew _ _ => true | _ => false end.

(** A row without a machine id has never-activated as its activation
    time. *)
Definition row_tidy (r : license) : Prop :=
  machine_id r = "" -> activated_at r = 0.


(** Reading a key back: the value of an uppercase hexadecimal digit, the
    byte of two digits, and the bytes of a key with its hyphens dropped. *)
Definition hex_value (c : ascii) : option N :=
  let n := N_of_ascii c in
  if ((48 <=? n) && (n <=? 57))%N then Some (n - 48)%N
  else if ((65 <=? n) && (n <=? 70))%N then Some (n - 55)%N
  else None.

Definition byte_of_digits (hi lo : ascii) : option byte :=
  match hex_value hi, hex_value lo with
  | Some h, Some l => Byte.of_N (16 * h + l)
  | _, _ => None
  end.

Fixpoint unhex (fuel : nat) (s : string) : option (list byte) :=
  match s, fuel with
  | EmptyString, _ => Some []
  | String hi (String lo s'), S fuel' =>
      match byte_of_digits hi lo, unhex fuel' s' with
      | Some b, Some bs => Some (b :: bs)
      | _, _ => None
      end
  | _, _ => None
  end.

Fixpoint drop_hyphens (s : string) : string :=
  match s with
  | EmptyString => EmptyString
  | String c s' =>
      if Ascii.eqb c "-" then drop_hyphens s' else String c (drop_hyphens s')
  end.

Definition key_bytes (key : string) : option (list byte) :=
  unhex (String.length key) (drop_hyphens key).


(** * Properties *)

Local Open Scope list_scope.

(** ** Strings *)

Section Strings.

Import PyStr.

Lemma truthy_true (s : string) : truthy s = true <-> s <> "".
Proof.
  destruct s; simpl; split; congruence.
Qed.

Lemma lstrip_head (s : string) :
  lstrip s = "" \/
  exists c t, lstrip s = String c t /\ isspace c = false.
Proof.
  induction s as [|c s IH]; simpl; [now left|].
  destruct (isspace c) eqn:E; [exact IH|].
  right. now exists c, s.
Qed.

Lemma rstrip_idem (s : string) : rstrip (rstrip s) = rstrip s.
Proof.
  induction s as [|c s IH]; simpl; [reflexivity|].
  destruct (rstrip s) as [|d t] eqn:E.
  - destruct (isspace c) eqn:Ec; simpl; [reflexivity|now rewrite Ec].
  - simpl in IH |- *.
    destruct (rstrip t) as [|d' t'] eqn:Et.
    + destruct (isspace d) eqn:Ed; [discriminate|].
      injection IH as <-. reflexivity.
    + rewrite IH. reflexivity.
Qed.

Lemma rstrip_keeps_head (c : ascii) (t : string) :
  isspace c = false -> exists u, rstrip (String c t) = String c u.
Proof.
  intros Hc. simpl. destruct (rstrip t) as [|d u].
  - rewrite Hc. now exists "".
  - now exists (String d u).
Qed.

Lemma strip_idem (s : string) : strip (strip s) = strip s.
Proof.
  unfold strip.
  destruct (lstrip_head s) as [E|(c & t & E & Hc)]; rewrite E.
  - reflexivity.
  - destruct (rstrip_keeps_head c t Hc) as [u Eu].
    rewrite Eu. simpl lstrip. rewrite Hc, <- Eu.
    apply rstrip_idem.
Qed.

Lemma strip_empty : strip "" = "".
Proof. reflexivity. Qed.




End Strings.

Section KeyFormat.

Import PyStr.





Lemma hex_byte_upper (b : byte) :
  let n := Byte.to_N b in
  is_upper_hex (upper_char (hex_digit (n / 16))) = true
  /\ is_upper_hex (upper_char (hex_digit (n mod 16))) = true.
Proof.
  destruct b; vm_compute; split; reflexivity.
Qed.

(** Every key that [generate_key] builds has the fixed format. *)
Lemma generate_key_format (ent : entropy) (pos : nat) :
  key_format (fst (generate_key ent pos)) = true.
Proof.
  unfold generate_key, token_hex, token_bytes.
  cbn [seq map hex upper fst].
  generalize (hex_byte_upper (ent pos)).
  generalize (hex_byte_upper (ent (S pos))).
  generalize (hex_byte_upper (ent (S (S pos)))).
  generalize (hex_byte_upper (ent (S (S (S pos))))).
  generalize (hex_byte_upper (ent (S (S (S (S pos)))))).
  generalize (hex_byte_upper (ent (S (S (S (S (S pos))))))).
  generalize (hex_byte_upper (ent (S (S (S (S (S (S pos)))))))).
  generalize (hex_byte_upper (ent (S (S (S (S (S (S (S pos))))))))).
  cbv zeta.
  intros [A1 A2] [B1 B2] [C1 C2] [D1 D2] [E1 E2] [F1 F2] [G1 G2] [H1 H2].
  unfold slice, key_format.
  cbn [substring Nat.sub append hex_group and_then hyphen].
  repeat match goal with
    | H : is_upper_hex ?c = true |- context [is_upper_hex ?c] =>
        rewrite H; cbn [hex_group and_then hyphen]
    end.
  reflexivity.
Qed.

Lemma generate_key_pos (ent : entropy) (pos : nat) :
  snd (generate_key ent pos) = (pos + 8)%nat.
Proof. reflexivity. Qed.

End KeyFormat.

(** ** Numbers *)

Section Numbers.

Lemma Qlt_bool_true (x y : Q) : Qlt_bool x y = true <-> x < y.
Proof.
  unfold Qlt_bool. rewrite negb_true_iff.
  split; intros H.
  - apply Qnot_le_lt. intros L. apply Qle_bool_iff in L. congruence.
  - destruct (Qle_bool y x) eqn:E; [|reflexivity].
    apply Qle_bool_iff in E. exfalso. apply (Qlt_not_le _ _ H E).
Qed.

Lemma Qlt_bool_false (x y : Q) : Qlt_bool x y = false <-> ~ x < y.
Proof.
  rewrite <- Qlt_bool_true. destruct (Qlt_bool x y); split; congruence.
Qed.





Lemma nonzero_0 : nonzero 0 = false.
Proof. reflexivity. Qed.

End Numbers.

(** ** The table *)

Section Table.

Lemma has_key_true (k : string) (r : license) :
  has_key k r = true <-> license_key r = k.
Proof. unfold has_key. apply String.eqb_eq. Qed.

Lemma has_key_false (k : string) (r : license) :
  has_key k r = false <-> license_key r <> k.
Proof. unfold has_key. apply String.eqb_neq. Qed.

Lemma select_key_found (k : string) (db : store) (r : license) :
  select_key k db = Some r -> license_key r = k /\ In r db.
Proof.
  intros H. apply find_some in H as [Hin Hk].
  split; [now apply has_key_true|exact Hin].
Qed.

Lemma select_key_none (k : string) (db : store) :
  select_key k db = None <-> ~ In k (map license_key db).
Proof.
  unfold select_key. induction db as [|x db IH]; simpl.
  - tauto.
  - destruct (has_key k x) eqn:E.
    + apply has_key_true in E. split; [discriminate|]. tauto.
    + apply has_key_false in E. rewrite IH. tauto.
Qed.

Lemma existsb_has_key (k : string) (db : store) :
  existsb (has_key k) db = false <-> ~ In k (map license_key db).
Proof.
  induction db as [|x db IH]; simpl.
  - tauto.
  - rewrite orb_false_iff, IH, has_key_false. tauto.
Qed.

Lemma select_key_app (k : string) (db l : store) :
  select_key k (db ++ l) =
  match select_key k db with
  | Some r => Some r
  | None => select_key k l
  end.
Proof.
  unfold select_key. induction db as [|x db IH]; simpl; [reflexivity|].
  destruct (has_key k x); [reflexivity|exact IH].
Qed.


Section Update.

Variable f : license -> license.
Hypothesis f_key : forall r, license_key (f r) = license_key r.

Lemma update_key_keys (k : string) (db : store) :
  map license_key (update_key k f db) = map license_key db.
Proof.
  unfold update_key. rewrite map_map. apply map_ext.
  intros r. destruct (has_key k r); [apply f_key|reflexivity].
Qed.

Lemma select_key_update (k k' : string) (db : store) :
  select_key k' (update_key k f db) =
  option_map (fun r => if has_key k r then f r else r)
             (select_key k' db).
Proof.
  unfold select_key, update_key.
  induction db as [|x db IH]; simpl; [reflexivity|].
  assert (E : has_key k' (if has_key k x then f x else x) = has_key k' x).
  { unfold has_key. destruct (license_key x =? k); [|reflexivity].
    now rewrite f_key. }
  rewrite E. destruct (has_key k' x); [reflexivity|exact IH].
Qed.

Lemma select_key_update_same (k : string) (db : store) (r : license) :
  select_key k db = Some r ->
  select_key k (update_key k f db) = Some (f r).
Proof.
  intros H. rewrite select_key_update, H. simpl.
  apply select_key_found in H as [H _].
  apply has_key_true in H. now rewrite H.
Qed.

End Update.

Lemma rowcount_pos (k : string) (db : store) :
  (0 <? rowcount k db)%nat = true <-> In k (map license_key db).
Proof.
  unfold rowcount. rewrite Nat.ltb_lt.
  induction db as [|x db IH]; simpl.
  - split; [lia|tauto].
  - destruct (has_key k x) eqn:E; simpl.
    + apply has_key_true in E. split; [tauto|lia].
    + apply has_key_false in E. rewrite IH. tauto.
Qed.

End Table.

(** ** Key generation in [admin_generate] *)

Section GenerateLoop.

Variables (ent : entropy) (mail note : string) (now expires : timestamp).

Lemma db_insert_some (key : string) (db db' : store) :
  db_insert key mail now expires note db = Some db' ->
  ~ In key (map license_key db)
  /\ db' = db ++ [fresh_row mail note now expires key].
Proof.
  unfold db_insert. destruct (existsb (has_key key) db) eqn:E;
    [discriminate|].
  intros [= <-]. split; [now apply existsb_has_key|reflexivity].
Qed.


(** A loop that ends without an [IntegrityError] has added one row per
    round, each under the key drawn in that round; the keys are new to
    the table and differ from one another. *)
Lemma generate_loop_some (n : nat) : forall db keys pos db' keys' pos',
  generate_loop ent n mail note now expires db keys pos
    = (Some (db', keys'), pos') ->
  let ks := drawn_keys ent pos n in
  keys' = keys ++ ks
  /\ db' = db ++ map (fresh_row mail note now expires) ks
  /\ pos' = (pos + 8 * n)%nat
  /\ NoDup ks
  /\ (forall k, In k ks -> ~ In k (map license_key db)).
Proof.
  induction n as [|n IH]; intros db keys pos db' keys' pos' H.
  - simpl in H. injection H as <- <- <-. simpl.
    rewrite !app_nil_r. repeat split; [lia|constructor|tauto].
  - cbn [generate_loop] in H.
    destruct (generate_key ent pos) as [key p1] eqn:G.
    assert (Gk : fst (generate_key ent pos) = key) by now rewrite G.
    assert (Gp : p1 = (pos + 8)%nat).
    { rewrite <- (generate_key_pos ent pos). now rewrite G. }
    subst p1.
    destruct (db_insert key mail now expires note db) as [db1|] eqn:I;
      [|discriminate].
    apply db_insert_some in I as [Hfresh ->].
    apply IH in H as (-> & -> & -> & Hnd & Hnew).
    cbn [drawn_keys]. rewrite Gk. cbn zeta.
    repeat split.
    + now rewrite <- app_assoc.
    + now rewrite <- app_assoc.
    + lia.
    + constructor; [|exact Hnd].
      intros Hin. apply (Hnew _ Hin).
      rewrite map_app, in_app_iff. right. simpl. now left.
    + intros k [<-|Hin]; [exact Hfresh|].
      intros Hk. apply (Hnew _ Hin).
      rewrite map_app, in_app_iff. now left.
Qed.


Lemma drawn_keys_format (n : nat) : forall pos,
  Forall (fun k => key_format k = true) (drawn_keys ent pos n).
Proof.
  induction n as [|n IH]; intros pos; simpl; constructor.
  - apply generate_key_format.
  - apply IH.
Qed.

Lemma drawn_keys_length (n : nat) : forall pos,
  List.length (drawn_keys ent pos n) = n.
Proof.
  induction n as [|n IH]; intros pos; simpl; [reflexivity|].
  now rewrite IH.
Qed.

End GenerateLoop.

(** ** What the handlers do to the table *)

Section Effects.

Import PyStr.

(** A refused activation writes nothing. *)
Lemma activate_refused (now : timestamp) (k m : string) (db : store) :
  is_granted (fst (activate now k m db)) = false ->
  snd (activate now k m db) = db.
Proof.
  unfold activate.
  destruct (negb (truthy (strip k)) || negb (truthy (strip m)));
    [reflexivity|].
  destruct (select_key (strip k) db) as [row|]; [|reflexivity].
  destruct (revoked row); [reflexivity|].
  destruct (Qlt_bool (expires_at row) now); [reflexivity|].
  destruct (truthy (machine_id row) && negb (machine_id row =? strip m));
    [reflexivity|].
  simpl. discriminate.
Qed.

(** A granted one rebinds the rows of the key, and nothing else. *)
Lemma activate_granted (now : timestamp) (k m : string) (db : store) :
  is_granted (fst (activate now k m db)) = true ->
  snd (activate now k m db)
  = update_key (strip k) (set_binding (strip m) now) db.
Proof.
  unfold activate.
  destruct (negb (truthy (strip k)) || negb (truthy (strip m)));
    [discriminate|].
  destruct (select_key (strip k) db) as [row|]; [|discriminate].
  destruct (revoked row); [discriminate|].
  destruct (Qlt_bool (expires_at row) now); [discriminate|].
  destruct (truthy (machine_id row) && negb (machine_id row =? strip m));
    [discriminate|].
  reflexivity.
Qed.

(** [validate] never writes. *)
Lemma validate_reads (now : timestamp) (k m : string) (db : store) :
  snd (validate now k m db) = db.
Proof.
  unfold validate.
  destruct (negb (truthy (strip k)) || negb (truthy (strip m)));
    [reflexivity|].
  destruct (select_key (strip k) db) as [row|]; [|reflexivity].
  destruct (revoked row); [reflexivity|].
  destruct (Qlt_bool (expires_at row) now); [reflexivity|].
  destruct (negb (machine_id row =? strip m)); reflexivity.
Qed.

Lemma admin_revoke_store (key : string) (db : store) :
  snd (admin_revoke key db) = update_key key (set_revoked true) db.
Proof.
  unfold admin_revoke. destruct (0 <? rowcount key db)%nat; reflexivity.
Qed.

Lemma admin_unbind_store (key : string) (db : store) :
  snd (admin_unbind key db) = update_key key (set_binding "" 0) db.
Proof.
  unfold admin_unbind. destruct (0 <? rowcount key db)%nat; reflexivity.
Qed.

Lemma admin_renew_store (now : timestamp) (key : string) (days : option Q)
    (db : store) :
  snd (admin_renew now key days db) = db
  \/ exists e, snd (admin_renew now key days db)
               = update_key key (set_renewed e) db.
Proof.
  unfold admin_renew. destruct (select_key key db) as [row|].
  - right. eexists. reflexivity.
  - now left.
Qed.

(** [admin_generate] either commits nothing or appends the rows of the
    keys it drew, which are new to the table and pairwise distinct. *)
Lemma admin_generate_store (ent : entropy) (now : timestamp)
    (count : option Z) (days : option Q) (mail note : string)
    (db : store) (pos : nat) :
  let n := Z.to_nat (Z.min (get count 1%Z) 50) in
  let expires := now + get days 30 * day in
  let ks := drawn_keys ent pos n in
  let out := admin_generate ent now count days mail note db pos in
  (fst (fst out) = None /\ snd (fst out) = db)
  \/ (fst (fst out)
        = Some (mkGenerateReply ks (get days 30) expires
                                (Z.min (get count 1%Z) 50))
      /\ snd (fst out) = db ++ map (fresh_row mail note now expires) ks
      /\ snd out = (pos + 8 * n)%nat
      /\ NoDup ks
      /\ (forall k, In k ks -> ~ In k (map license_key db))).
Proof.
  cbv zeta. unfold admin_generate.
  destruct (generate_loop ent _ mail note now _ db [] pos)
    as [[[db' keys]|] pos'] eqn:L.
  - right. apply generate_loop_some in L.
    destruct L as (-> & -> & -> & Hnd & Hnew). simpl.
    repeat split; assumption.
  - left. split; reflexivity.
Qed.

End Effects.

(** ** The invariant of reachable tables *)

Section Invariant.

Lemma row_ok_update (k : string) (f : license -> license) (db : store) :
  (forall r, row_ok r -> row_ok (f r)) ->
  Forall row_ok db -> Forall row_ok (update_key k f db).
Proof.
  intros Hf H. unfold update_key. apply Forall_map.
  eapply Forall_impl; [|exact H].
  intros r Hr. destruct (has_key k r); auto.
Qed.

Lemma store_ok_update (k : string) (f : license -> license) (db : store) :
  (forall r, license_key (f r) = license_key r) ->
  (forall r, row_ok r -> row_ok (f r)) ->
  store_ok db -> store_ok (update_key k f db).
Proof.
  intros Hk Hf [Hnd Hrows]. split.
  - now rewrite update_key_keys.
  - now apply row_ok_update.
Qed.

Lemma row_ok_binding (machine : string) (t : timestamp) (r : license) :
  PyStr.strip machine = machine -> row_ok r ->
  row_ok (set_binding machine t r).
Proof. intros Hm [Hk _]. split; assumption. Qed.

Lemma NoDup_append (l ks : list string) :
  NoDup l -> NoDup ks -> (forall k, In k ks -> ~ In k l) -> NoDup (l ++ ks).
Proof.
  intros Hl Hks Hnew.
  induction l as [|x l IH]; simpl; [exact Hks|].
  inversion Hl as [|? ? Hx Hl']; subst. constructor.
  - rewrite in_app_iff. intros [H|H]; [exact (Hx H)|].
    apply (Hnew x H). now left.
  - apply IH; [exact Hl'|].
    intros k Hk Hin. apply (Hnew k Hk). now right.
Qed.

Lemma fresh_rows_keys (mail note : string) (now expires : timestamp)
    (ks : list string) :
  map license_key (map (fresh_row mail note now expires) ks) = ks.
Proof. rewrite map_map. simpl. apply map_id. Qed.

Lemma store_ok_append (db : store) (mail note : string)
    (now expires : timestamp) (ks : list string) :
  store_ok db -> NoDup ks ->
  Forall (fun k => key_format k = true) ks ->
  (forall k, In k ks -> ~ In k (map license_key db)) ->
  store_ok (db ++ map (fresh_row mail note now expires) ks).
Proof.
  intros [Hnd Hrows] Hks Hfmt Hnew. split.
  - rewrite map_app, fresh_rows_keys. now apply NoDup_append.
  - apply Forall_app. split; [exact Hrows|].
    apply Forall_map. eapply Forall_impl; [|exact Hfmt].
    intros k Hk. split; [exact Hk|reflexivity].
Qed.

Lemma store_ok_serve (ent : entropy) (now : timestamp) (req : request)
    (db : store) (pos : nat) :
  store_ok db -> store_ok (fst (serve ent now req db pos)).
Proof.
  intros Hok. destruct req as [k m|k m|c d mail note|k|k d|k|]; simpl.
  - destruct (is_granted (fst (activate now k m db))) eqn:G.
    + rewrite (activate_granted _ _ _ _ G).
      apply store_ok_update; [reflexivity| |exact Hok].
      intros r. apply row_ok_binding, strip_idem.
    + now rewrite (activate_refused _ _ _ _ G).
  - now rewrite validate_reads.
  - destruct (admin_generate_store ent now c d mail note db pos)
      as [[_ E]|(_ & E & _ & Hnd & Hnew)];
      destruct (admin_generate ent now c d mail note db pos)
        as [[rep db'] pos']; simpl in *; subst db'.
    + exact Hok.
    + apply store_ok_append; auto using drawn_keys_format.
  - rewrite admin_revoke_store.
    apply store_ok_update; [reflexivity| |exact Hok].
    intros r [? ?]. split; assumption.
  - destruct (admin_renew_store now k d db) as [E|[e E]]; rewrite E.
    + exact Hok.
    + apply store_ok_update; [reflexivity| |exact Hok].
      intros r [? ?]. split; assumption.
  - rewrite admin_unbind_store.
    apply store_ok_update; [reflexivity| |exact Hok].
    intros r. now apply row_ok_binding.
  - exact Hok.
Qed.

(** Every table the server can hold has distinct, well-formed keys and
    trimmed machine ids. *)
Lemma reachable_ok (db : store) : reachable db -> store_ok db.
Proof.
  induction 1 as [|ent now req db pos _ IH].
  - split; constructor.
  - now apply store_ok_serve.
Qed.

End Invariant.

(** ** Sample tables *)

Lemma issued_reachable : reachable issued.
Proof. apply reach_serve, reach_init. Qed.

Lemma bound_reachable : reachable bound.
Proof. apply reach_serve, issued_reachable. Qed.

Lemma bound_revoked_reachable : reachable bound_revoked.
Proof. apply reach_serve, bound_reachable. Qed.

Lemma bound_is : bound = [bound_row].
Proof. reflexivity. Qed.

Lemma bound_revoked_is : bound_revoked = [bound_revoked_row].
Proof. reflexivity. Qed.

(** ** Revocation *)

Section Revocation.

Import PyStr.

Variables (now : timestamp) (k m : string) (db : store) (r : license).
Hypothesis present_k : truthy (strip k) = true.
Hypothesis present_m : truthy (strip m) = true.
Hypothesis found : select_key (strip k) db = Some r.
Hypothesis is_revoked : revoked r = true.

Lemma activate_revoked :
  activate now k m db = (Refused "License has been revoked" 403, db).
Proof.
  unfold activate. now rewrite present_k, present_m, found, is_revoked.
Qed.

Lemma validate_revoked :
  validate now k m db = (Refused "License revoked" 403, db).
Proof.
  unfold validate. now rewrite present_k, present_m, found, is_revoked.
Qed.

End Revocation.

(** No request other than a renewal turns a revoked row into one that is
    not revoked. *)
Lemma revoked_kept (ent : entropy) (now : timestamp) (req : request)
    (db : store) (pos : nat) (key : string) (r : license) :
  is_renew req = false ->
  select_key key db = Some r -> revoked r = true ->
  exists r', select_key key (fst (serve ent now req db pos)) = Some r'
             /\ revoked r' = true.
Proof.
  intros Hreq Hsel Hrev.
  destruct req as [k m|k m|c d mail note|k|k d|k|]; simpl;
    try discriminate Hreq.
  - destruct (is_granted (fst (activate now k m db))) eqn:G.
    + rewrite (activate_granted _ _ _ _ G).
      rewrite select_key_update by reflexivity. rewrite Hsel. simpl.
      eexists. split; [reflexivity|].
      destruct (has_key (PyStr.strip k) r); exact Hrev.
    + rewrite (activate_refused _ _ _ _ G). now exists r.
  - rewrite validate_reads. now exists r.
  - destruct (admin_generate_store ent now c d mail note db pos)
      as [[_ E]|(_ & E & _)];
      destruct (admin_generate ent now c d mail note db pos)
        as [[rep db'] pos']; simpl in *; subst db'.
    + now exists r.
    + rewrite select_key_app, Hsel. now exists r.
  - rewrite admin_revoke_store.
    rewrite select_key_update by reflexivity. rewrite Hsel. simpl.
    eexists. split; [reflexivity|].
    destruct (has_key k r); [reflexivity|exact Hrev].
  - rewrite admin_unbind_store.
    rewrite select_key_update by reflexivity. rewrite Hsel. simpl.
    eexists. split; [reflexivity|].
    destruct (has_key k r); exact Hrev.
  - now exists r.
Qed.

(** C1.  A revoked record refuses [activate] and [validate] with the
    Revoked reason whatever its expiry and its machine binding, for every
    request that carries its key and a machine id; and of the seven
    operations only [renew] can turn the flag from true to false: serving
    any other request leaves the record revoked, while a renewal of the key
    clears the flag. *)
Theorem revoked_blocks_until_renew
    (ent : entropy) (now : timestamp) (db : store) (pos : nat)
    (key : string) (r : license) :
  select_key key db = Some r -> revoked r = true ->
  (forall k m,
      PyStr.strip k = key -> PyStr.truthy key = true ->
      PyStr.truthy (PyStr.strip m) = true ->
      rejection_of (fst (activate now k m db)) = Some Revoked
      /\ rejection_of (fst (validate now k m db)) = Some Revoked)
  /\ (forall req, is_renew req = false ->
        exists r', select_key key (fst (serve ent now req db pos)) = Some r'
                   /\ revoked r' = true)
  /\ (forall days,
        exists r',
          select_key key (fst (serve ent now (Renew key days) db pos))
          = Some r'
          /\ revoked r' = false).
Proof.
  intros Hsel Hrev. repeat split.
  - subst key. now rewrite (activate_revoked now k m db r).
  - subst key. now rewrite (validate_revoked now k m db r).
  - intros req Hreq. now apply revoked_kept with (r := r).
  - intros days. simpl. unfold admin_renew. rewrite Hsel. simpl.
    rewrite (select_key_update_same (set_renewed _) (fun _ => eq_refl)
               key db r Hsel).
    eexists. split; reflexivity.
Qed.

Lemma revoked_blocks_until_renew_witness :
  select_key key0 bound_revoked = Some bound_revoked_row
  /\ rejection_of (fst (activate 30 key0 "M1" bound_revoked)) = Some Revoked
  /\ rejection_of (fst (validate 30 key0 "M1" bound_revoked)) = Some Revoked.
Proof.
  split; [reflexivity|].
  apply (proj1 (revoked_blocks_until_renew sample_entropy 30 bound_revoked 8
                  key0 bound_revoked_row eq_refl eq_refl)
               key0 "M1"); reflexivity.
Defined.

(** C10.  On a record that is both revoked and expired, [activate] and
    [validate] answer with the Revoked reason and not with the Expired
    one: the revoked test comes first in both handlers. *)
Theorem revoked_precedes_expired
    (now : timestamp) (k m : string) (db : store) (r : license) :
  PyStr.truthy (PyStr.strip k) = true ->
  PyStr.truthy (PyStr.strip m) = true ->
  select_key (PyStr.strip k) db = Some r ->
  revoked r = true -> expired now r ->
  (fst (activate now k m db) = Refused "License has been revoked" 403
   /\ rejection_of (fst (activate now k m db)) = Some Revoked
   /\ rejection_of (fst (activate now k m db)) <> Some Expired)
  /\ (fst (validate now k m db) = Refused "License revoked" 403
      /\ rejection_of (fst (validate now k m db)) = Some Revoked
      /\ rejection_of (fst (validate now k m db)) <> Some Expired).
Proof.
  intros Hk Hm Hsel Hrev _.
  rewrite (activate_revoked now k m db r Hk Hm Hsel Hrev).
  rewrite (validate_revoked now k m db r Hk Hm Hsel Hrev).
  simpl. repeat split; discriminate.
Qed.

Lemma revoked_precedes_expired_witness :
  expired 3000000 bound_revoked_row
  /\ rejection_of (fst (activate 3000000 key0 "M2" bound_revoked))
     = Some Revoked
  /\ rejection_of (fst (validate 3000000 key0 "M2" bound_revoked))
     = Some Revoked.
Proof.
  assert (E : expired 3000000 bound_revoked_row) by reflexivity.
  split; [exact E|].
  destruct (revoked_precedes_expired 3000000 key0 "M2" bound_revoked
              bound_revoked_row eq_refl eq_refl eq_refl eq_refl E)
    as [(_ & A & _) (_ & V & _)].
  split; [exact A|exact V].
Defined.

(** ** Renewal *)



(** ** Activation from another machine *)

(** C3, as stated, fails: the record of [bound_revoked] is bound to [M1],
    and an activation from the distinct machine [M2] is refused as
    Revoked, not as MachineMismatch. *)
Lemma activate_other_machine_counterexample :
  reachable bound_revoked
  /\ select_key key0 bound_revoked = Some bound_revoked_row
  /\ machine_id bound_revoked_row = "M1"
  /\ "M2" <> "M1"
  /\ fst (activate 30 key0 "M2" bound_revoked)
     = Refused "License has been revoked" 403
  /\ rejection_of (fst (activate 30 key0 "M2" bound_revoked))
     <> Some MachineMismatch.
Proof.
  split; [exact bound_revoked_reachable|].
  repeat split; try reflexivity; discriminate.
Qed.

(** C3, amended.  When the record of the key is bound to a machine [M] and
    the machine id of the request, once trimmed, differs from [M], then
    [activate] is refused and leaves the whole table as it was.  The
    reason is MachineMismatch when key and machine id are present and the
    record is neither revoked nor expired; it is MissingInput, Revoked or
    Expired, in this order, when one of these tests fires first.  And no
    refused [activate] ever writes. *)
Theorem activate_other_machine_rejected
    (now : timestamp) (k m : string) (db : store) (r : license) :
  select_key (PyStr.strip k) db = Some r ->
  machine_id r <> "" ->
  PyStr.strip m <> machine_id r ->
  let out := activate now k m db in
  is_granted (fst out) = false
  /\ snd out = db
  /\ rejection_of (fst out)
     = Some (if negb (PyStr.truthy (PyStr.strip k))
                || negb (PyStr.truthy (PyStr.strip m)) then MissingInput
             else if revoked r then Revoked
             else if Qlt_bool (expires_at r) now then Expired
             else MachineMismatch)
  /\ (forall now' k' m' db',
        is_granted (fst (activate now' k' m' db')) = false ->
        snd (activate now' k' m' db') = db').
Proof.
  intros Hsel Hbound Hother out.
  assert (G : is_granted (fst out) = false
              /\ rejection_of (fst out)
                 = Some (if negb (PyStr.truthy (PyStr.strip k))
                            || negb (PyStr.truthy (PyStr.strip m))
                         then MissingInput
                         else if revoked r then Revoked
                         else if Qlt_bool (expires_at r) now then Expired
                         else MachineMismatch)).
  { unfold out, activate.
    destruct (negb (PyStr.truthy (PyStr.strip k))
              || negb (PyStr.truthy (PyStr.strip m))); [now split|].
    rewrite Hsel.
    destruct (revoked r); [now split|].
    destruct (Qlt_bool (expires_at r) now); [now split|].
    apply truthy_true in Hbound. rewrite Hbound.
    assert (E : (machine_id r =? PyStr.strip m) = false).
    { apply String.eqb_neq. congruence. }
    rewrite E. now split. }
  destruct G as [G R].
  split; [exact G|]. split; [now apply activate_refused|].
  split; [exact R|]. intros now' k' m' db'. apply activate_refused.
Qed.

Lemma activate_other_machine_rejected_witness :
  fst (activate 30 key0 "M2" bound)
  = Refused "License is already activated on another machine" 403
  /\ snd (activate 30 key0 "M2" bound) = bound
  /\ rejection_of (fst (activate 30 key0 "M2" bound)) = Some MachineMismatch.
Proof.
  assert (B : machine_id bound_row <> "") by discriminate.
  assert (O : PyStr.strip "M2" <> machine_id bound_row) by discriminate.
  destruct (activate_other_machine_rejected 30 key0 "M2" bound bound_row
              eq_refl B O) as (_ & S & R & _).
  split; [reflexivity|]. split; [exact S|exact R].
Defined.

(** ** Validation *)


(** ** Activation from the bound machine *)

(** On any table: a request whose trimmed machine id is the one the record
    is bound to, or whose record is not bound at all, is granted when the
    record is neither revoked nor expired; the row then carries that
    machine id and the clock reading. *)
Lemma activate_grants
    (now : timestamp) (k m : string) (db : store) (r : license) :
  PyStr.strip k <> "" -> PyStr.strip m <> "" ->
  select_key (PyStr.strip k) db = Some r ->
  revoked r = false -> ~ expired now r ->
  machine_id r = "" \/ machine_id r = PyStr.strip m ->
  fst (activate now k m db)
  = Granted true "License activated"
            (py_int (days_left_of (expires_at r) now)) (expires_at r)
  /\ select_key (PyStr.strip k) (snd (activate now k m db))
     = Some (set_binding (PyStr.strip m) now r).
Proof.
  intros Hk Hm Hsel Hrev Hexp Hmach.
  assert (G : fst (activate now k m db)
              = Granted true "License activated"
                        (py_int (days_left_of (expires_at r) now))
                        (expires_at r)).
  { unfold activate.
    apply truthy_true in Hk, Hm. rewrite Hk, Hm, Hsel, Hrev.
    apply Qlt_bool_false in Hexp. rewrite Hexp.
    destruct Hmach as [E|E]; rewrite E; [reflexivity|].
    rewrite String.eqb_refl, andb_false_r. reflexivity. }
  split; [exact G|].
  rewrite activate_granted by now rewrite G.
  now apply select_key_update_same.
Qed.



(** ** Generation *)

Section Generation.

Variables (ent : entropy) (now : timestamp) (count_ : option Z)
          (days_ : option Q) (mail note : string) (db : store) (pos : nat).

(** The outcome of a call that did not die of an [IntegrityError]. *)
Lemma admin_generate_some (rep : generate_reply) (db' : store) (pos' : nat) :
  admin_generate ent now count_ days_ mail note db pos = (Some rep, db', pos')
  ->
  let n := Z.to_nat (Z.min (get count_ 1%Z) 50) in
  let expires := now + get days_ 30 * day in
  rep = mkGenerateReply (drawn_keys ent pos n) (get days_ 30) expires
                        (Z.min (get count_ 1%Z) 50)
  /\ db' = db ++ map (fresh_row mail note now expires) (drawn_keys ent pos n)
  /\ NoDup (drawn_keys ent pos n)
  /\ (forall k, In k (drawn_keys ent pos n) -> ~ In k (map license_key db)).
Proof.
  intros H. cbv zeta.
  destruct (admin_generate_store ent now count_ days_ mail note db pos)
    as [[E _]|(E1 & E2 & _ & Hnd & Hnew)]; rewrite H in *; simpl in *.
  - discriminate.
  - injection E1 as ->. now repeat split.
Qed.


End Generation.

(** C5, as stated, fails: a count of 0, like a negative one, is answered
    without error and with no key at all, and nothing is stored. *)
Lemma generate_count_counterexample :
  admin_generate sample_entropy 0 (Some 0%Z) None "a@b.com" "" [] 0
  = (Some (mkGenerateReply [] 30 2592000 0), [], 0%nat)
  /\ admin_generate sample_entropy 0 (Some (-5)%Z) None "a@b.com" "" [] 0
     = (Some (mkGenerateReply [] 30 2592000 (-5)), [], 0%nat).
Proof. split; reflexivity. Qed.

(** C5, amended.  [generate] bounds the count from above only, by
    [min(count, 50)] and without error: a count from 1 to 50 yields that
    many records, a larger one exactly 50, and a count of 0 or below none;
    an absent count is 1 and absent days are 30.  The records of a batch
    are appended to the table, one per returned key; each is unbound (empty
    machine id, [activated_at] 0, not revoked) and all share email, notes,
    creation time and expiry [now + days * 86400]. *)
Theorem generate_count_capped
    (ent : entropy) (now : timestamp) (count_ : option Z) (days_ : option Q)
    (mail note : string) (db : store) (pos : nat)
    (rep : generate_reply) (db' : store) (pos' : nat) :
  admin_generate ent now count_ days_ mail note db pos = (Some rep, db', pos')
  ->
  let count := get count_ 1%Z in
  let expires := now + get days_ 30 * day in
  ((count <= 0 -> gen_keys rep = [])%Z
   /\ (1 <= count <= 50 -> Z.of_nat (List.length (gen_keys rep)) = count)%Z
   /\ (50 < count -> List.length (gen_keys rep) = 50%nat)%Z
   /\ (count_ = None -> List.length (gen_keys rep) = 1%nat))
  /\ (gen_days rep = get days_ 30 /\ gen_expires rep = expires
      /\ (days_ = None -> gen_days rep = 30
                          /\ gen_expires rep = now + 30 * day))
  /\ exists rows,
       db' = db ++ rows
       /\ map license_key rows = gen_keys rep
       /\ Forall (fun r => unbound r /\ email r = mail /\ notes r = note
                           /\ created_at r = now /\ expires_at r = expires)
                 rows.
Proof.
  intros H count expires.
  apply admin_generate_some in H as (-> & -> & _ & _).
  fold count. fold expires. cbn [gen_keys gen_days gen_expires].
  assert (L := drawn_keys_length ent (Z.to_nat (Z.min count 50)) pos).
  split; [|split].
  - repeat split.
    + intros Hc. replace (Z.to_nat (Z.min count 50)) with 0%nat by lia.
      reflexivity.
    + intros Hc. rewrite L. lia.
    + intros Hc. rewrite L. lia.
    + intros Hc. rewrite L. unfold count. rewrite Hc. reflexivity.
  - split; [reflexivity|]. split; [reflexivity|].
    intros Hd. unfold expires. rewrite Hd. split; reflexivity.
  - eexists. split; [reflexivity|]. split.
    + rewrite map_map. apply map_id.
    + apply Forall_map, Forall_forall. intros k _. now repeat split.
Qed.

Lemma generate_count_capped_witness :
  List.length
    (gen_keys (mkGenerateReply (drawn_keys sample_entropy 0 50) 30 2592000 50))
  = 50%nat.
Proof.
  assert (H : admin_generate sample_entropy 0 (Some 60%Z) None "a@b.com" ""
                             [] 0
              = (Some (mkGenerateReply (drawn_keys sample_entropy 0 50)
                                       30 2592000 50),
                 map (fresh_row "a@b.com" "" 0 2592000)
                     (drawn_keys sample_entropy 0 50),
                 400%nat)) by (vm_compute; reflexivity).
  destruct (generate_count_capped _ _ _ _ _ _ _ _ _ _ _ H)
    as ((_ & _ & C & _) & _).
  apply C. reflexivity.
Defined.

(** ** Listing *)

Section Listing.

Lemma insert_desc_In (r x : license) (l : list license) :
  In x (insert_desc r l) <-> x = r \/ In x l.
Proof.
  induction l as [|y l IH]; simpl.
  - intuition congruence.
  - destruct (Qle_bool (created_at y) (created_at r)); simpl.
    + intuition congruence.
    + rewrite IH. intuition congruence.
Qed.

(** The listing shows every row of the table, and only those. *)
Lemma order_by_created_desc_In (x : license) (db : store) :
  In x (order_by_created_desc db) <-> In x db.
Proof.
  unfold order_by_created_desc. induction db as [|r db IH]; simpl.
  - tauto.
  - rewrite insert_desc_In, IH. intuition congruence.
Qed.



Lemma py_int_below (x : Q) (n : Z) :
  (0 < n)%Z -> x < inject_Z n -> (py_int x < n)%Z.
Proof.
  destruct x as [a b]. unfold py_int, Qlt, inject_Z. simpl.
  intros Hn H.
  destruct (Z_lt_le_dec a 0) as [Ha|Ha].
  - assert (0 <= (- a) ÷ Z.pos b)%Z by (apply Z.quot_pos; lia).
    replace a with (- - a)%Z by lia.
    rewrite Z.quot_opp_l by lia. lia.
  - apply Z.quot_lt_upper_bound; lia.
Qed.

End Listing.




(** ** Keys *)

(** C8.  Every key that [generate_key] builds is four groups of four
    uppercase hexadecimal digits joined by hyphens.  A [generate] that
    goes through returns keys that are pairwise distinct and new to the
    table, so that a table with distinct keys still has distinct keys
    afterwards; one that meets a key already stored dies of the [UNIQUE]
    constraint and stores nothing.  Hence in every table the server can
    hold the keys are pairwise distinct and well formed. *)
Theorem generated_keys_format_unique :
  (forall ent pos, key_format (fst (generate_key ent pos)) = true)
  /\ (forall ent now count days mail note db pos rep db' pos',
        admin_generate ent now count days mail note db pos
        = (Some rep, db', pos') ->
        Forall (fun k => key_format k = true) (gen_keys rep)
        /\ NoDup (gen_keys rep)
        /\ (forall k, In k (gen_keys rep) -> ~ In k (map license_key db))
        /\ map license_key db' = map license_key db ++ gen_keys rep
        /\ (NoDup (map license_key db) -> NoDup (map license_key db')))
  /\ (forall ent now count days mail note db pos db' pos',
        admin_generate ent now count days mail note db pos
        = (None, db', pos') -> db' = db)
  /\ (forall db, reachable db ->
        NoDup (map license_key db)
        /\ Forall (fun r => key_format (license_key r) = true) db).
Proof.
  split; [exact generate_key_format|]. split; [|split].
  - intros ent now count days mail note db pos rep db' pos' H.
    apply admin_generate_some in H as (-> & -> & Hnd & Hnew).
    cbn [gen_keys].
    split; [apply drawn_keys_format|]. split; [exact Hnd|].
    split; [exact Hnew|].
    rewrite map_app, fresh_rows_keys. split; [reflexivity|].
    intros Hdb. now apply NoDup_append.
  - intros ent now count days mail note db pos db' pos' H.
    destruct (admin_generate_store ent now count days mail note db pos)
      as [[_ E]|(E & _)]; rewrite H in *; simpl in *; congruence.
  - intros db Hreach. destruct (reachable_ok db Hreach) as [Hnd Hrows].
    split; [exact Hnd|].
    eapply Forall_impl; [|exact Hrows]. now intros r [Hk _].
Qed.

(** ** Scenarios *)

(** The walk-throughs of the specification, run on the sample tables. *)

Example activate_then_validate :
  is_granted (fst (activate 10 key0 "M1" issued)) = true
  /\ snd (activate 10 key0 "M1" issued) = bound
  /\ fst (validate 11 key0 "M1" bound) = Granted false "License valid" 29 2592000
  /\ rejection_of (fst (validate 11 key0 "M2" bound)) = Some MachineMismatch.
Proof. repeat split. Qed.

Example never_activated_does_not_validate :
  rejection_of (fst (validate 1 key0 "M1" issued)) = Some MachineMismatch.
Proof. reflexivity. Qed.

Example expired_is_refused :
  rejection_of (fst (activate 2592001 key0 "M1" bound)) = Some Expired
  /\ rejection_of (fst (validate 2592001 key0 "M1" bound)) = Some Expired
  /\ is_granted (fst (validate 2592000 key0 "M1" bound)) = true.
Proof. repeat split. Qed.

Example revoke_renew_validate :
  rejection_of (fst (validate 30 key0 "M1" bound_revoked)) = Some Revoked
  /\ is_granted
       (fst (validate 30 key0 "M1"
                      (snd (admin_renew 25 key0 None bound_revoked))))
     = true.
Proof. repeat split. Qed.

Example unbind_then_other_machine :
  rejection_of (fst (activate 30 key0 "M2" bound)) = Some MachineMismatch
  /\ is_granted (fst (activate 30 key0 "M2" (snd (admin_unbind key0 bound))))
     = true.
Proof. repeat split. Qed.

Example blanks_are_trimmed :
  is_granted (fst (validate 11 " 0000-0000-0000-0000 " "M1 " bound)) = true
  /\ rejection_of (fst (validate 11 key0 "   " bound)) = Some MissingInput.
Proof. repeat split. Qed.

Example colliding_key_stores_nothing :
  admin_generate sample_entropy 5 (Some 1%Z) None "" "" issued 0
  = (None, issued, 8%nat).
Proof. reflexivity. Qed.

(** * Further properties of the handlers *)

(** ** Keys that are not in the table *)

Section Absent.

Variables (key : string) (db : store).
Hypothesis absent : select_key key db = None.

Lemma update_key_absent (f : license -> license) : update_key key f db = db.
Proof.
  apply select_key_none in absent. unfold update_key.
  rewrite <- (map_id db) at 2. apply map_ext_in.
  intros r Hr. destruct (has_key key r) eqn:E; [|reflexivity].
  apply has_key_true in E. exfalso. apply absent. rewrite <- E.
  now apply in_map.
Qed.

Lemma rowcount_absent : (0 <? rowcount key db)%nat = false.
Proof.
  destruct (0 <? rowcount key db)%nat eqn:E; [|reflexivity].
  apply rowcount_pos in E. now apply select_key_none in absent.
Qed.

End Absent.

Lemma rowcount_present (key : string) (db : store) (r : license) :
  select_key key db = Some r -> (0 <? rowcount key db)%nat = true.
Proof.
  intros H. apply rowcount_pos.
  destruct (select_key_found _ _ _ H) as [<- Hin]. now apply in_map.
Qed.

Lemma select_key_update_other (f : license -> license) (k k' : string)
    (db : store) :
  (forall r, license_key (f r) = license_key r) -> k' <> k ->
  select_key k' (update_key k f db) = select_key k' db.
Proof.
  intros Hf Hk. rewrite select_key_update by exact Hf.
  destruct (select_key k' db) as [r|] eqn:E; [|reflexivity]. simpl.
  apply select_key_found in E as [E _].
  assert (F : has_key k r = false) by (apply has_key_false; congruence).
  now rewrite F.
Qed.

(** X1.  A key that the table does not hold is answered "not found" by
    every handler that takes a key, and the table stays as it is:
    [revoke], [renew] and [unbind] fail with status 404, and so do
    [activate] and [validate] whenever key and machine id are present. *)
Theorem unknown_key_not_found
    (now : timestamp) (key : string) (days : option Q) (db : store) :
  select_key key db = None ->
  admin_revoke key db = (Failed "Key not found" 404, db)
  /\ admin_renew now key days db = (Failed "Key not found" 404, db)
  /\ admin_unbind key db = (Failed "Key not found" 404, db)
  /\ forall k m,
       PyStr.strip k = key -> key <> "" -> PyStr.strip m <> "" ->
       activate now k m db = (Refused "Invalid license key" 404, db)
       /\ validate now k m db = (Refused "Invalid license key" 404, db)
       /\ rejection_of (fst (activate now k m db)) = Some NotFound
       /\ rejection_of (fst (validate now k m db)) = Some NotFound.
Proof.
  intros Habs.
  split; [unfold admin_revoke; now rewrite rowcount_absent, update_key_absent|].
  split; [unfold admin_renew; now rewrite Habs|].
  split; [unfold admin_unbind; now rewrite rowcount_absent, update_key_absent|].
  intros k m Hk Hkey Hm. subst key.
  apply truthy_true in Hkey, Hm.
  unfold activate, validate. rewrite Hkey, Hm, Habs.
  repeat split.
Qed.

Lemma unknown_key_not_found_witness :
  admin_revoke "FFFF-FFFF-FFFF-FFFF" bound
  = (Failed "Key not found" 404, bound)
  /\ activate 20 " FFFF-FFFF-FFFF-FFFF" "M1" bound
     = (Refused "Invalid license key" 404, bound).
Proof.
  destruct (unknown_key_not_found 20 "FFFF-FFFF-FFFF-FFFF" None bound eq_refl)
    as (R & _ & _ & A).
  split; [exact R|].
  apply (A " FFFF-FFFF-FFFF-FFFF" "M1"); [reflexivity|discriminate..].
Defined.

(** ** The decision of [activate] *)


(** ** Live records *)

Section Live.

Variables (now : timestamp) (k m : string) (db : store) (r : license).
Hypothesis present_k : PyStr.strip k <> "".
Hypothesis present_m : PyStr.strip m <> "".
Hypothesis found : select_key (PyStr.strip k) db = Some r.
Hypothesis not_revoked : revoked r = false.

Lemma validate_grants :
  ~ expired now r -> machine_id r = PyStr.strip m ->
  validate now k m db
  = (Granted false "License valid"
             (py_int (days_left_of (expires_at r) now)) (expires_at r), db).
Proof.
  intros Hexp Hm. unfold validate.
  apply truthy_true in present_k, present_m.
  rewrite present_k, present_m, found, not_revoked.
  apply Qlt_bool_false in Hexp. rewrite Hexp, Hm, String.eqb_refl.
  reflexivity.
Qed.



Lemma client_expired :
  expired now r ->
  activate now k m db = (Refused "License has expired" 403, db)
  /\ validate now k m db = (Refused "License expired" 403, db).
Proof.
  intros Hexp. unfold activate, validate.
  apply truthy_true in present_k, present_m.
  rewrite present_k, present_m, found, not_revoked.
  apply Qlt_bool_true in Hexp. now rewrite Hexp.
Qed.

End Live.



(** X4.  Whatever [validate] grants, [activate] grants too at the same
    clock reading, with the same [days_left] and expiry in its reply; the
    record stays bound to the same machine and only its [activated_at]
    moves to the clock reading. *)
Theorem validate_implies_activate
    (now : timestamp) (k m : string) (db : store) :
  is_granted (fst (validate now k m db)) = true ->
  exists r left_,
    select_key (PyStr.strip k) db = Some r
    /\ fst (validate now k m db)
       = Granted false "License valid" left_ (expires_at r)
    /\ fst (activate now k m db)
       = Granted true "License activated" left_ (expires_at r)
    /\ select_key (PyStr.strip k) (snd (activate now k m db))
       = Some (mkLicense (license_key r) (machine_id r) (email r)
                         (created_at r) (expires_at r) now (revoked r)
                         (notes r)).
Proof.
  intros G.
  assert (F : exists row,
             PyStr.strip k <> "" /\ PyStr.strip m <> ""
             /\ select_key (PyStr.strip k) db = Some row
             /\ revoked row = false /\ ~ expired now row
             /\ machine_id row = PyStr.strip m).
  { unfold validate in G.
    destruct (PyStr.strip k) as [|ck key'] eqn:Ek; [discriminate|].
    destruct (PyStr.strip m) as [|cm machine'] eqn:Em; [discriminate|].
    cbn [PyStr.truthy negb orb] in G.
    destruct (select_key (String ck key') db) as [row|] eqn:Hsel;
      [|discriminate].
    destruct (revoked row) eqn:Hrev; [discriminate|].
    destruct (Qlt_bool (expires_at row) now) eqn:Hexp; [discriminate|].
    destruct (machine_id row =? String cm machine') eqn:Hm; [|discriminate].
    apply String.eqb_eq in Hm. apply Qlt_bool_false in Hexp.
    exists row. repeat split; try assumption; discriminate. }
  destruct F as (row & Hk' & Hm' & Hsel & Hrev & Hexp & Hm).
  exists row, (py_int (days_left_of (expires_at row) now)).
  split; [exact Hsel|].
  rewrite (validate_grants now k m db row Hk' Hm' Hsel Hrev Hexp Hm).
  destruct (activate_grants now k m db row Hk' Hm' Hsel Hrev Hexp
              (or_intror Hm)) as [A S].
  rewrite A, S, <- Hm. unfold set_binding. repeat split.
Qed.

Lemma validate_implies_activate_witness :
  exists r left_,
    select_key (PyStr.strip key0) bound = Some r
    /\ fst (validate 11 key0 "M1" bound)
       = Granted false "License valid" left_ (expires_at r)
    /\ fst (activate 11 key0 "M1" bound)
       = Granted true "License activated" left_ (expires_at r)
    /\ select_key (PyStr.strip key0) (snd (activate 11 key0 "M1" bound))
       = Some (mkLicense (license_key r) (machine_id r) (email r)
                         (created_at r) (expires_at r) 11 (revoked r)
                         (notes r)).
Proof. exact (validate_implies_activate 11 key0 "M1" bound eq_refl). Defined.

(** X5.  A record that is not revoked and whose expiry lies before the
    clock is refused by [activate] and by [validate] with their expired
    answers (status 403), whatever machine it is or is not bound to and
    whatever machine asks; nothing is written. *)
Theorem expired_is_rejected
    (now : timestamp) (k m : string) (db : store) (r : license) :
  PyStr.strip k <> "" -> PyStr.strip m <> "" ->
  select_key (PyStr.strip k) db = Some r ->
  revoked r = false -> expired now r ->
  activate now k m db = (Refused "License has expired" 403, db)
  /\ validate now k m db = (Refused "License expired" 403, db)
  /\ rejection_of (fst (activate now k m db)) = Some Expired
  /\ rejection_of (fst (validate now k m db)) = Some Expired.
Proof.
  intros Hk Hm Hsel Hrev Hexp.
  destruct (client_expired now k m db r Hk Hm Hsel Hrev Hexp) as [A V].
  rewrite A, V. repeat split.
Qed.

Lemma expired_is_rejected_witness :
  activate 2592001 key0 "M1" bound
  = (Refused "License has expired" 403, bound)
  /\ validate 2592001 key0 "M1" bound
     = (Refused "License expired" 403, bound).
Proof.
  assert (K : PyStr.strip key0 <> "") by discriminate.
  assert (M : PyStr.strip "M1" <> "") by discriminate.
  assert (E : expired 2592001 bound_row) by reflexivity.
  destruct (expired_is_rejected 2592001 key0 "M1" bound bound_row
              K M eq_refl eq_refl E) as (A & V & _).
  split; [exact A|exact V].
Defined.

(** ** Days left *)

Section DaysLeft.

Lemma py_int_floor (x : Q) :
  0 <= x ->
  (0 <= py_int x)%Z
  /\ inject_Z (py_int x) <= x /\ x < inject_Z (py_int x + 1).
Proof.
  destruct x as [a b]. unfold py_int, Qle, Qlt, inject_Z. simpl.
  intros Ha.
  assert (Hb : (0 < Z.pos b)%Z) by lia.
  assert (Ha' : (0 <= a)%Z) by lia.
  rewrite Z.quot_div_nonneg by lia.
  pose proof (Z.mul_div_le a (Z.pos b) Hb).
  pose proof (Z.mul_succ_div_gt a (Z.pos b) Hb).
  pose proof (Z.div_pos a (Z.pos b) Ha' Hb).
  repeat split; lia.
Qed.


Lemma day_positive : 0 < day.
Proof. reflexivity. Qed.




End DaysLeft.




(** ** Revoke, unbind and renew on a stored key *)

(** X7.  [revoke] on a stored key answers success and sets [revoked] on
    its record, keeping every other column and every record of another
    key; revoking again changes nothing more.  From then on [activate]
    and [validate] on that key are refused as revoked, at any time and
    from any machine. *)
Theorem revoke_then_refused (key : string) (db : store) (r : license) :
  select_key key db = Some r ->
  let db' := snd (admin_revoke key db) in
  fst (admin_revoke key db) = Done "License revoked"
  /\ select_key key db'
     = Some (mkLicense (license_key r) (machine_id r) (email r)
                       (created_at r) (expires_at r) (activated_at r) true
                       (notes r))
  /\ (forall key', key' <> key -> select_key key' db' = select_key key' db)
  /\ admin_revoke key db' = (Done "License revoked", db')
  /\ forall now k m,
       PyStr.strip k = key -> key <> "" -> PyStr.strip m <> "" ->
       activate now k m db' = (Refused "License has been revoked" 403, db')
       /\ validate now k m db' = (Refused "License revoked" 403, db').
Proof.
  intros Hsel db'.
  assert (S : snd (admin_revoke key db) = update_key key (set_revoked true) db)
    by apply admin_revoke_store.
  assert (R : select_key key db' = Some (set_revoked true r)).
  { unfold db'. rewrite S.
    exact (select_key_update_same (set_revoked true) (fun _ => eq_refl)
             _ _ _ Hsel). }
  split.
  { unfold admin_revoke. now rewrite (rowcount_present _ _ _ Hsel). }
  split; [exact R|]. split.
  { intros key' Hk. unfold db'. rewrite S.
    now apply select_key_update_other. }
  split.
  { unfold admin_revoke. rewrite (rowcount_present _ _ _ R).
    f_equal. unfold db'. rewrite S. unfold update_key.
    rewrite map_map. apply map_ext. intros x.
    destruct (has_key key x) eqn:E; [|now rewrite E].
    assert (E' : has_key key (set_revoked true x) = true) by exact E.
    now rewrite E'. }
  intros now k m Hk Hkey Hm. subst key.
  apply truthy_true in Hkey, Hm.
  rewrite (activate_revoked now k m db' _ Hkey Hm R eq_refl).
  rewrite (validate_revoked now k m db' _ Hkey Hm R eq_refl).
  split; reflexivity.
Qed.

Lemma revoke_then_refused_witness :
  fst (admin_revoke key0 bound) = Done "License revoked"
  /\ select_key key0 (snd (admin_revoke key0 bound))
     = Some bound_revoked_row.
Proof.
  destruct (revoke_then_refused key0 bound bound_row eq_refl)
    as (A & B & _).
  split; [exact A|exact B].
Defined.





(** ** What a request can write *)

(** The table after a request is the table before, or that table with
    rows appended by [generate], or with the rows of the named key
    rewritten by one of the three updates. *)
Lemma serve_shape (ent : entropy) (now : timestamp) (req : request)
    (db : store) (pos : nat) :
  let db' := fst (serve ent now req db pos) in
  db' = db
  \/ (is_generate req = true
      /\ exists mail note created expires ks,
           db' = db ++ map (fresh_row mail note created expires) ks
           /\ NoDup ks
           /\ (forall k, In k ks -> ~ In k (map license_key db)))
  \/ (exists k,
        target req = Some k
        /\ ((writes_binding req = true
             /\ exists machine t, db' = update_key k (set_binding machine t) db)
            \/ (writes_revoked req = true /\ is_renew req = false
                /\ db' = update_key k (set_revoked true) db)
            \/ (is_renew req = true
                /\ exists e, db' = update_key k (set_renewed e) db))).
Proof.
  destruct req as [k m|k m|c d mail note|k|k d|k|]; simpl.
  - destruct (is_granted (fst (activate now k m db))) eqn:G.
    + right. right. exists (PyStr.strip k). split; [reflexivity|].
      left. split; [reflexivity|].
      exists (PyStr.strip m), now. now apply activate_granted.
    + left. now apply activate_refused.
  - left. apply validate_reads.
  - destruct (admin_generate_store ent now c d mail note db pos)
      as [[_ E]|(_ & E & _ & Hnd & Hnew)];
      destruct (admin_generate ent now c d mail note db pos)
        as [[rep db'] pos']; simpl in *; subst db'.
    + now left.
    + right. left. split; [reflexivity|].
      now eexists _, _, _, _, _.
  - right. right. exists k. split; [reflexivity|].
    right. left. repeat split. apply admin_revoke_store.
  - destruct (admin_renew_store now k d db) as [E|[e E]].
    + now left.
    + right. right. exists k. split; [reflexivity|].
      right. right. split; [reflexivity|]. now exists e.
  - right. right. exists k. split; [reflexivity|].
    left. split; [reflexivity|]. eexists _, _. apply admin_unbind_store.
  - now left.
Qed.

(** X10.  Serving a request never loses a record and rewrites only the
    columns of its own operation, on the key it names.  The record of
    every stored key is still there afterwards with the same key, email,
    creation time and notes; its expiry is the same unless the request is
    a renewal, its machine id and activation time are the same unless the
    request is an activation or an unbinding, its revoked flag is the
    same unless the request is a revocation or a renewal; and it is the
    very same record when the request names another key or none. *)
Theorem request_writes_only_its_columns
    (ent : entropy) (now : timestamp) (req : request) (db : store)
    (pos : nat) (key : string) (r : license) :
  select_key key db = Some r ->
  exists r',
    select_key key (fst (serve ent now req db pos)) = Some r'
    /\ (license_key r' = license_key r /\ email r' = email r
        /\ created_at r' = created_at r /\ notes r' = notes r)
    /\ (is_renew req = false -> expires_at r' = expires_at r)
    /\ (writes_binding req = false ->
        machine_id r' = machine_id r /\ activated_at r' = activated_at r)
    /\ (writes_revoked req = false -> revoked r' = revoked r)
    /\ (target req <> Some key -> r' = r).
Proof.
  intros Hsel.
  destruct (serve_shape ent now req db pos)
    as [E|[(Hg & mail & note & c & e & ks & E & _)|(k & Ht & H)]].
  - rewrite E. exists r. now repeat split.
  - rewrite E, select_key_app, Hsel. exists r. now repeat split.
  - assert (U : forall f,
               (forall x, license_key (f x) = license_key x) ->
               select_key key (update_key k f db)
               = Some (if has_key k r then f r else r)).
    { intros f Hf. now rewrite select_key_update, Hsel by exact Hf. }
    assert (O : target req <> Some key -> has_key k r = false).
    { intros Hne. apply has_key_false.
      destruct (select_key_found _ _ _ Hsel) as [-> _]. congruence. }
    assert (W : is_renew req = true -> writes_revoked req = true).
    { destruct req; simpl; congruence. }
    destruct H as [(Hb & machine & t & E)|[(Hr & Hn & E)|(Hn & e & E)]];
      try specialize (W Hn);
      rewrite E, U by reflexivity;
      eexists; (split; [reflexivity|]);
      destruct (has_key k r) eqn:Hk;
      repeat split; intros; try reflexivity; try congruence;
      try (specialize (O ltac:(assumption)); congruence).
Qed.

Lemma request_writes_only_its_columns_witness :
  exists r',
    select_key key0
      (fst (serve sample_entropy 20 (Revoke key0) bound 8)) = Some r'
    /\ expires_at r' = expires_at bound_row
    /\ machine_id r' = machine_id bound_row.
Proof.
  destruct (request_writes_only_its_columns sample_entropy 20 (Revoke key0)
              bound 8 key0 bound_row eq_refl)
    as (r' & A & _ & B & C & _).
  exists r'. split; [exact A|]. split; [exact (B eq_refl)|].
  exact (proj1 (C eq_refl)).
Defined.

(** X11.  No request removes or renames a key: the keys of the table
    after a request are the keys before it, in the same order, followed
    by the keys that the request added, and only [generate] adds any;
    the keys it adds are pairwise distinct and new to the table. *)
Theorem keys_only_grow
    (ent : entropy) (now : timestamp) (req : request) (db : store)
    (pos : nat) :
  exists ks,
    map license_key (fst (serve ent now req db pos))
    = map license_key db ++ ks
    /\ NoDup ks
    /\ (forall k, In k ks -> ~ In k (map license_key db))
    /\ (is_generate req = false -> ks = [])
    /\ List.length (fst (serve ent now req db pos))
       = (List.length db + List.length ks)%nat.
Proof.
  destruct (serve_shape ent now req db pos)
    as [E|[(Hg & mail & note & c & e & ks & E & Hnd & Hnew)|(k & Ht & H)]].
  - exists []. rewrite E, app_nil_r. simpl.
    repeat split; [constructor|tauto|lia].
  - exists ks. rewrite E, map_app, fresh_rows_keys.
    repeat split; try assumption.
    + congruence.
    + now rewrite length_app, length_map.
  - assert (U : forall f,
               (forall x, license_key (f x) = license_key x) ->
               map license_key (update_key k f db) = map license_key db
               /\ List.length (update_key k f db) = List.length db).
    { intros f Hf. split; [now apply update_key_keys|].
      unfold update_key. apply length_map. }
    exists []. rewrite app_nil_r. simpl.
    destruct H as [(Hb & machine & t & E)|[(Hr & Hn & E)|(Hn & e & E)]];
      rewrite E;
      match goal with
      | |- context [update_key k ?f db] =>
          destruct (U f (fun _ => eq_refl)) as [U1 U2]
      end;
      rewrite U1, U2; repeat split; try constructor; try tauto; lia.
Qed.

(** ** The listing *)

Section Ordering.






End Ordering.


(** X13.  Every entry of the listing copies key, machine id, email,
    creation time, expiry, revoked flag and notes from a record of the
    table; its [days_left] is never negative, is 0 as soon as less than
    one day remains, in particular for every expired record, and is at
    least 1 otherwise; [activated] is true exactly when the record's
    [activated_at] is not zero. *)
Theorem listing_entries (now : timestamp) (db : store) (en : list_entry) :
  In en (admin_list now db) ->
  (exists r, In r db
             /\ e_license_key en = license_key r
             /\ e_machine_id en = machine_id r
             /\ e_email en = email r
             /\ e_created en = created_at r
             /\ e_expires en = expires_at r
             /\ e_revoked en = revoked r
             /\ e_notes en = notes r
             /\ (e_activated en = true <-> ~ activated_at r == 0))
  /\ (0 <= e_days_left en)%Z
  /\ (e_expires en - now < 86400 -> e_days_left en = 0%Z)
  /\ (86400 <= e_expires en - now -> (1 <= e_days_left en)%Z).
Proof.
  intros H. unfold admin_list in H. apply in_map_iff in H as (r & <- & Hr).
  apply (proj1 (order_by_created_desc_In r db)) in Hr.
  split.
  { exists r. do 8 (split; [first [assumption|reflexivity]|]).
    cbn [entry_of e_activated]. unfold nonzero. rewrite negb_true_iff.
    split.
    - intros E Z. apply Qeq_bool_iff in Z. congruence.
    - intros N.
      destruct (Qeq_bool (activated_at r) 0) eqn:E; [|reflexivity].
      apply Qeq_bool_iff in E. now elim N. }
  cbn [entry_of e_days_left e_expires].
  set (x := (expires_at r - now) / day).
  split; [lia|]. split.
  - intros L.
    assert (B : (py_int x < 1)%Z).
    { apply py_int_below; [lia|]. unfold x.
      apply Qlt_shift_div_r; [exact day_positive|].
      change (inject_Z 1) with 1. unfold day. lra. }
    lia.
  - intros L.
    assert (X1 : 1 <= x).
    { unfold x. apply Qle_shift_div_l; [exact day_positive|].
      unfold day. lra. }
    assert (X0 : 0 <= x) by lra.
    destruct (py_int_floor x X0) as (_ & _ & U).
    assert (B : (0 < py_int x + 1 - 1)%Z \/ (py_int x + 1 <= 1)%Z) by lia.
    destruct B as [B|B]; [lia|].
    exfalso.
    assert (U' : inject_Z (py_int x + 1) <= 1).
    { change 1 with (inject_Z 1). unfold Qle, inject_Z. simpl. lia. }
    lra.
Qed.

Lemma listing_entries_witness :
  exists en, In en (admin_list 2591999 bound)
             /\ e_license_key en = key0
             /\ e_days_left en = 0%Z.
Proof.
  set (en := entry_of 2591999 bound_row).
  assert (I : In en (admin_list 2591999 bound)) by (left; reflexivity).
  destruct (listing_entries 2591999 bound en I) as (_ & _ & Z & _).
  exists en. split; [exact I|]. split; [reflexivity|].
  apply Z. reflexivity.
Defined.



(** ** Binding and activation time *)

Lemma activate_granted_present (now : timestamp) (k m : string) (db : store) :
  is_granted (fst (activate now k m db)) = true -> PyStr.strip m <> "".
Proof.
  unfold activate. intros G E. rewrite E in G. simpl in G.
  rewrite orb_true_r in G. discriminate.
Qed.

Lemma tidy_update (k : string) (f : license -> license) (db : store) :
  (forall r, row_tidy (f r)) ->
  Forall row_tidy db -> Forall row_tidy (update_key k f db).
Proof.
  intros Hf H. unfold update_key. apply Forall_map.
  eapply Forall_impl; [|exact H].
  intros r Hr. destruct (has_key k r); auto.
Qed.

Lemma tidy_update_kept (k : string) (f : license -> license) (db : store) :
  (forall r, machine_id (f r) = machine_id r
             /\ activated_at (f r) = activated_at r) ->
  Forall row_tidy db -> Forall row_tidy (update_key k f db).
Proof.
  intros Hf H. unfold update_key. apply Forall_map.
  eapply Forall_impl; [|exact H].
  intros r Hr. destruct (has_key k r); [|exact Hr].
  unfold row_tidy. destruct (Hf r) as [-> ->]. exact Hr.
Qed.

Lemma tidy_serve (ent : entropy) (now : timestamp) (req : request)
    (db : store) (pos : nat) :
  Forall row_tidy db -> Forall row_tidy (fst (serve ent now req db pos)).
Proof.
  intros Hok. destruct req as [k m|k m|c d mail note|k|k d|k|]; simpl.
  - destruct (is_granted (fst (activate now k m db))) eqn:G.
    + rewrite (activate_granted _ _ _ _ G).
      apply tidy_update; [|exact Hok].
      intros r E. simpl in E.
      now apply activate_granted_present in G.
    + now rewrite (activate_refused _ _ _ _ G).
  - now rewrite validate_reads.
  - destruct (admin_generate_store ent now c d mail note db pos)
      as [[_ E]|(_ & E & _)];
      destruct (admin_generate ent now c d mail note db pos)
        as [[rep db'] pos']; simpl in *; subst db'.
    + exact Hok.
    + apply Forall_app. split; [exact Hok|].
      apply Forall_map, Forall_forall. intros key _ _. reflexivity.
  - rewrite admin_revoke_store.
    apply tidy_update_kept; [now split|exact Hok].
  - destruct (admin_renew_store now k d db) as [E|[e E]]; rewrite E.
    + exact Hok.
    + apply tidy_update_kept; [now split|exact Hok].
  - rewrite admin_unbind_store.
    apply tidy_update; [|exact Hok]. intros r _. reflexivity.
  - exact Hok.
Qed.

(** X15.  In every table the server can hold, a stored machine id has no
    surrounding blanks, and a record without a machine id has
    [activated_at] 0.  So the listing never shows a license as activated
    that is bound to no machine. *)
Theorem activated_means_bound (db : store) :
  reachable db ->
  Forall (fun r => PyStr.strip (machine_id r) = machine_id r
                   /\ (machine_id r = "" -> activated_at r = 0)) db
  /\ forall now en,
       In en (admin_list now db) -> e_activated en = true ->
       e_machine_id en <> "".
Proof.
  intros Hreach.
  assert (T : Forall row_tidy db).
  { induction Hreach as [|ent now req db pos _ IH]; [constructor|].
    now apply tidy_serve. }
  destruct (reachable_ok db Hreach) as [_ Hrows].
  split.
  - rewrite Forall_forall in *. intros r Hr. split.
    + now destruct (Hrows r Hr).
    + exact (T r Hr).
  - intros now en Hin Hact Hm.
    unfold admin_list in Hin. apply in_map_iff in Hin as (r & <- & Hr).
    apply (proj1 (order_by_created_desc_In r db)) in Hr.
    rewrite Forall_forall in T. specialize (T r Hr Hm).
    cbn [entry_of e_activated] in Hact. rewrite T in Hact. discriminate.
Qed.

Lemma activated_means_bound_witness :
  Forall (fun r => PyStr.strip (machine_id r) = machine_id r
                   /\ (machine_id r = "" -> activated_at r = 0))
         (snd (admin_unbind key0 bound)).
Proof.
  assert (R : reachable (snd (admin_unbind key0 bound))).
  { exact (reach_serve sample_entropy 20 (Unbind key0) bound 8
             bound_reachable). }
  exact (proj1 (activated_means_bound _ R)).
Defined.

(** ** Keys and the bytes they are drawn from *)

Lemma hex_byte_back (b : byte) :
  let n := Byte.to_N b in
  let hi := PyStr.upper_char (hex_digit (n / 16)) in
  let lo := PyStr.upper_char (hex_digit (n mod 16)) in
  byte_of_digits hi lo = Some b
  /\ Ascii.eqb hi "-" = false /\ Ascii.eqb lo "-" = false.
Proof.
  destruct b; vm_compute; repeat split.
Qed.

Lemma drop_hyphens_keep (c : ascii) (s : string) :
  Ascii.eqb c "-" = false ->
  drop_hyphens (String c s) = String c (drop_hyphens s).
Proof. intros H. simpl. now rewrite H. Qed.

Lemma drop_hyphens_skip (s : string) :
  drop_hyphens (String "-" s) = drop_hyphens s.
Proof. reflexivity. Qed.

Lemma unhex_step (fuel : nat) (hi lo : ascii) (s : string) (b : byte) :
  byte_of_digits hi lo = Some b ->
  unhex (S fuel) (String hi (String lo s))
  = match unhex fuel s with
    | Some bs => Some (b :: bs)
    | None => None
    end.
Proof. intros H. simpl. now rewrite H. Qed.

(** X16.  A key spells out the eight bytes it was drawn from: it is 19
    characters long, and reading its sixteen hexadecimal digits back gives
    exactly those bytes.  Hence two generated keys are equal exactly when
    the eight bytes behind them are. *)
Theorem key_spells_its_bytes :
  (forall ent pos,
      key_bytes (fst (generate_key ent pos)) = Some (token_bytes ent pos 8)
      /\ String.length (fst (generate_key ent pos)) = 19%nat)
  /\ (forall ent1 pos1 ent2 pos2,
        fst (generate_key ent1 pos1) = fst (generate_key ent2 pos2) <->
        token_bytes ent1 pos1 8 = token_bytes ent2 pos2 8).
Proof.
  assert (R : forall ent pos,
             key_bytes (fst (generate_key ent pos))
             = Some (token_bytes ent pos 8)
             /\ String.length (fst (generate_key ent pos)) = 19%nat).
  { intros ent pos.
    unfold key_bytes, generate_key, token_hex, token_bytes.
    cbn [seq map hex PyStr.upper fst].
    generalize (hex_byte_back (ent pos)).
    generalize (hex_byte_back (ent (S pos))).
    generalize (hex_byte_back (ent (S (S pos)))).
    generalize (hex_byte_back (ent (S (S (S pos))))).
    generalize (hex_byte_back (ent (S (S (S (S pos)))))).
    generalize (hex_byte_back (ent (S (S (S (S (S pos))))))).
    generalize (hex_byte_back (ent (S (S (S (S (S (S pos)))))))).
    generalize (hex_byte_back (ent (S (S (S (S (S (S (S pos))))))))).
    cbv zeta.
    intros (A & A1 & A2) (B & B1 & B2) (C & C1 & C2) (D & D1 & D2)
           (E & E1 & E2) (F & F1 & F2) (G & G1 & G2) (H & H1 & H2).
    unfold PyStr.slice.
    cbn [substring Nat.sub append String.length].
    split; [|reflexivity].
    repeat first [ rewrite drop_hyphens_skip
                 | rewrite drop_hyphens_keep by assumption ].
    change (drop_hyphens "") with "".
    rewrite (unhex_step _ _ _ _ _ H), (unhex_step _ _ _ _ _ G),
      (unhex_step _ _ _ _ _ F), (unhex_step _ _ _ _ _ E),
      (unhex_step _ _ _ _ _ D), (unhex_step _ _ _ _ _ C),
      (unhex_step _ _ _ _ _ B), (unhex_step _ _ _ _ _ A).
    reflexivity. }
  split; [exact R|].
  intros ent1 pos1 ent2 pos2. split.
  - intros E. destruct (R ent1 pos1) as [R1 _].
    destruct (R ent2 pos2) as [R2 _]. rewrite E in R1. congruence.
  - intros E. unfold generate_key, token_hex. now rewrite E.
Qed.

(** ** When [generate] goes through *)


(** ** Fresh keys *)




(** ** The admin guard *)

(** X19.  A handler behind [require_admin] runs exactly when the
    [X-Admin-Secret] header equals the configured secret and that secret
    is plain ASCII.  With any other header an admin request is turned
    away before its handler starts: the table and the entropy source are
    as before.  The client routes [activate] and [validate] are served
    without any secret.  When no secret is configured, a request without
    the header is unauthorized. *)
Theorem admin_needs_secret
    (secret auth : string) (ent : entropy) (now : timestamp)
    (req : request) (db : store) (pos : nat) :
  (require_admin secret auth tt = Passed tt <->
   auth = secret /\ is_ascii secret = true)
  /\ (is_admin req = true -> auth <> secret ->
      serve_http secret auth ent now req db pos = (db, pos))
  /\ (is_admin req = true -> auth = secret -> is_ascii secret = true ->
      serve_http secret auth ent now req db pos = serve ent now req db pos)
  /\ (is_admin req = false ->
      serve_http secret auth ent now req db pos = serve ent now req db pos)
  /\ require_admin (ADMIN_SECRET None) "" tt = Unauthorized.
Proof.
  assert (P : forall A (f : A),
             auth = secret -> is_ascii secret = true ->
             require_admin secret auth f = Passed f).
  { intros A f -> Ha. unfold require_admin, compare_digest.
    now rewrite Ha, String.eqb_refl. }
  split; [split|].
  - intros H. unfold require_admin, compare_digest in H.
    destruct (is_ascii auth) eqn:Ea; [|discriminate].
    destruct (is_ascii secret) eqn:Es; [|discriminate].
    simpl in H. destruct (auth =? secret) eqn:E; [|discriminate].
    apply String.eqb_eq in E. now split.
  - intros [E Ha]. now apply P.
  - split; [|split; [|split]].
    + intros Hreq Hne. unfold serve_http. rewrite Hreq.
      unfold require_admin, compare_digest.
      apply String.eqb_neq in Hne. rewrite Hne.
      destruct (is_ascii auth && is_ascii secret); reflexivity.
    + intros Hreq E Ha. unfold serve_http. rewrite Hreq.
      now rewrite (P _ _ E Ha).
    + intros Hreq. unfold serve_http. now rewrite Hreq.
    + reflexivity.
Qed.
